(** * afxdp.c: the XDP program that redirects frames to AF_XDP sockets

    A shallow embedding of [src/ebpf/afxdp.c].  The file declares one BPF
    map, [xsks_map] (an XSKMAP with 64 slots keyed by receive-queue index),
    and one XDP program, [xsk_redir_prog], that looks the frame's receive
    queue up in the map and either redirects the frame through the map or
    passes it on to the network stack.

    The program runs against kernel state (the contents of the map and the
    per-CPU redirect record that [bpf_redirect_map] fills in), so it is
    written in a small state monad, one bind per C statement. *)

From stdpp Require Import base numbers option list strings.

Set Default Proof Using "Type".

(** ** Machine integers

    [__u32] values are naturals below [2^32]; the program does no arithmetic
    on them, it only compares a key against [max_entries] and uses it as a
    slot number.  [int] and [long] return values are integers. *)

Abbreviation u32 := N (only parsing).
Abbreviation u64 := N (only parsing).

(** ** Constants of the kernel interface ([vmlinux.h]) *)

Module Xdp.
(** [enum xdp_action] *)
Definition XDP_ABORTED : Z := 0.
Definition XDP_DROP : Z := 1.
Definition XDP_PASS : Z := 2.
Definition XDP_TX : Z := 3.
Definition XDP_REDIRECT : Z := 4.

(** The bits of [flags] that [bpf_redirect_map] reads as a fall-back
    return code: [XDP_ABORTED | XDP_DROP | XDP_PASS | XDP_TX]. *)
Definition action_mask : N := 3.
End Xdp.
Import Xdp.

Inductive bpf_map_type : Set :=
| BPF_MAP_TYPE_UNSPEC
| BPF_MAP_TYPE_XSKMAP.

(** [struct xdp_md], the frame delivery context handed to an XDP program. *)
Record xdp_md : Set := mk_xdp_md {
  data : u32;
  data_end : u32;
  data_meta : u32;
  ingress_ifindex : u32;
  rx_queue_index : u32;
  egress_ifindex : u32
}.

(** ** The map declaration (afxdp.c, lines 4-9) *)

Record bpf_map_decl : Set := mk_bpf_map_decl {
  map_type : bpf_map_type;
  key_size : N;
  value_size : N;
  max_entries : u32
}.

Definition xsks_map : bpf_map_decl :=
  {| map_type := BPF_MAP_TYPE_XSKMAP;
     key_size := 4;
     value_size := 4;
     max_entries := 64 |}.

(** ** Kernel state seen by the program *)

(** The per-CPU record in which [bpf_redirect_map] leaves the target of the
    redirect for the driver to act on after the program has returned. *)
Record bpf_redirect_info : Set := mk_redirect_info {
  tgt_index : u32;
  tgt_value : option u32;
  tgt_map : bpf_map_type
}.

(** Helper calls, logged in program order. *)
Inductive helper_call : Set :=
| call_map_lookup_elem (key : u32)
| call_redirect_map (key : u32) (flags : u64).

(** [xsk_slots] is the content of [xsks_map]: slot [i] holds the socket bound
    to receive queue [i], if any. *)
Record kernel : Set := mk_kernel {
  xsk_slots : list (option u32);
  ri : bpf_redirect_info;
  helper_log : list helper_call
}.

Definition set_ri (r : bpf_redirect_info) (k : kernel) : kernel :=
  {| xsk_slots := xsk_slots k; ri := r; helper_log := helper_log k |}.

Definition log_call (c : helper_call) (k : kernel) : kernel :=
  {| xsk_slots := xsk_slots k; ri := ri k; helper_log := helper_log k ++ [c] |}.

(** The map as created by the loader: every slot empty. *)
Definition xsks_map_init : list (option u32) :=
  replicate (N.to_nat (max_entries xsks_map)) None.

Definition ri_init : bpf_redirect_info :=
  {| tgt_index := 0; tgt_value := None; tgt_map := BPF_MAP_TYPE_UNSPEC |}.

Definition kernel_init : kernel :=
  {| xsk_slots := xsks_map_init; ri := ri_init; helper_log := [] |}.

(** ** The monad of BPF programs *)

Definition bpf (A : Type) : Type := kernel -> A * kernel.

Definition bpf_ret {A} (a : A) : bpf A := fun k => (a, k).

Definition bpf_bind {A B} (m : bpf A) (f : A -> bpf B) : bpf B :=
  fun k => let '(a, k') := m k in f a k'.

Definition bpf_get : bpf kernel := fun k => (k, k).

Definition bpf_modify (f : kernel -> kernel) : bpf unit := fun k => (tt, f k).

Declare Scope bpf_scope.
Delimit Scope bpf_scope with bpf.
Notation "'let*' x ':=' m 'in' f" := (bpf_bind m (fun x => f))
  (at level 10, x name, m at level 100, f at level 200) : bpf_scope.
Notation "'do' m 'then' f" := (bpf_bind m (fun _ => f))
  (at level 10, m at level 100, f at level 200) : bpf_scope.

(** ** Map access *)

(** Modelled from the spec: the slot read behind every lookup in the
    Registry ([lookup(queue_index) -> Option<socket_identifier>]); the code of
    the map itself is kernel code, absent from src/.  The table is the one
    afxdp.c declares, an XSKMAP of [max_entries] slots ("Capacity is fixed at
    construction (64 slots)"), so a key is a slot number and a key that is
    not below [max_entries] finds nothing.  "Returns the currently bound
    socket if one exists, otherwise an absent result; never fails with an
    error". *)
Definition xsk_map_lookup (map : bpf_map_decl) (slots : list (option u32))
    (key : u32) : option u32 :=
  if (max_entries map <=? key)%N then None
  else mjoin (slots !! N.to_nat key).

Arguments xsk_map_lookup : simpl never.

(** Modelled from the spec: the helper [bpf_map_lookup_elem], declared in
    bpf/bpf_helpers.h and implemented in the kernel, absent from src/.  It is
    the Registry's [lookup]: it reads the slot and changes nothing. *)
Definition bpf_map_lookup_elem (map : bpf_map_decl) (key : u32)
    : bpf (option u32) :=
  (do bpf_modify (log_call (call_map_lookup_elem key)) then
   let* k := bpf_get in
   bpf_ret (xsk_map_lookup map (xsk_slots k) key))%bpf.

(** Modelled from the spec: the helper [bpf_redirect_map], declared in
    bpf/bpf_helpers.h and implemented in the kernel, absent from src/.  "The
    hand-off mechanism is expected to resolve the index back to the bound
    socket at dispatch time", from the same table: the helper looks [key] up
    again, records the target in the redirect record and answers
    [XDP_REDIRECT].  When that lookup finds nothing it answers with the low
    two bits of [flags] instead, and a [flags] with any other bit set is
    answered with [XDP_ABORTED]. *)
Definition bpf_redirect_map (map : bpf_map_decl) (key : u32) (flags : u64)
    : bpf Z :=
  (do bpf_modify (log_call (call_redirect_map key flags)) then
   if negb (N.land flags (N.lnot Xdp.action_mask 64) =? 0)%N
   then bpf_ret XDP_ABORTED
   else
     let* k := bpf_get in
     match xsk_map_lookup map (xsk_slots k) key with
     | None =>
         do bpf_modify (set_ri {| tgt_index := tgt_index (ri k);
                               tgt_value := None;
                               tgt_map := BPF_MAP_TYPE_UNSPEC |}) then
         bpf_ret (Z.of_N (N.land flags Xdp.action_mask))
     | Some xs =>
         do bpf_modify (set_ri {| tgt_index := key;
                               tgt_value := Some xs;
                               tgt_map := map_type map |}) then
         bpf_ret XDP_REDIRECT
     end)%bpf.

(** ** The program (afxdp.c, lines 11-19) *)

Definition xsk_redir_prog (ctx : xdp_md) : bpf Z :=
  (let index := rx_queue_index ctx in
   let* found := bpf_map_lookup_elem xsks_map index in
   match found with
   | Some _ => bpf_redirect_map xsks_map index 0
   | None => bpf_ret XDP_PASS
   end)%bpf.

(** ** What the driver does with the program's answer *)

Inductive disposition : Set :=
| Pass
| Redirect (target_queue_index : u32)
| Tx
| Drop
| Aborted.

(** Modelled from the spec: the hosting pipeline's reading of the return
    code ("Decision output: one of Pass or Redirect(queue_index), consumed by
    the hosting packet-processing pipeline"), driver code that is absent from
    src/.  [XDP_REDIRECT] is addressed to the index left in the redirect
    record; a code outside [enum xdp_action] is treated as [XDP_ABORTED]. *)
Definition disposition_of (act : Z) (r : bpf_redirect_info) : disposition :=
  if (act =? XDP_PASS)%Z then Pass
  else if (act =? XDP_REDIRECT)%Z then Redirect (tgt_index r)
  else if (act =? XDP_TX)%Z then Tx
  else if (act =? XDP_DROP)%Z then Drop
  else Aborted.

Definition decision (ctx : xdp_md) (k : kernel) : disposition :=
  let '(act, k') := xsk_redir_prog ctx k in disposition_of act (ri k').

(** The socket the driver hands the frame to after the program has run. *)
Definition resolved_socket (ctx : xdp_md) (k : kernel) : option u32 :=
  tgt_value (ri (xsk_redir_prog ctx k).2).

(** ** The control plane *)

Inductive status : Set := Accepted | Rejected.

(** Modelled from the spec: registration of a socket against a queue, an
    operation of the control plane on the map, absent from src/.  "An entry is
    created when the control plane binds a socket to a queue; updated
    (replacing the bound socket) on re-registration of the same queue"; the
    table has the 64 slots afxdp.c declares, so a queue index that names no
    slot "must fail explicitly and must not corrupt or evict existing
    entries". *)
Definition registry_bind (map : bpf_map_decl) (key value : u32)
    (slots : list (option u32)) : status * list (option u32) :=
  if (max_entries map <=? key)%N then (Rejected, slots)
  else (Accepted, <[N.to_nat key := Some value]> slots).

(** Modelled from the spec: unregistration, an operation of the control
    plane on the map, absent from src/.  An entry is "removed when the socket
    unbinds or closes". *)
Definition registry_unbind (map : bpf_map_decl) (key : u32)
    (slots : list (option u32)) : status * list (option u32) :=
  if (max_entries map <=? key)%N then (Rejected, slots)
  else (Accepted, <[N.to_nat key := None]> slots).

(** The Registry as a list of (queue index, socket) entries, by increasing
    queue index: the occupied slots of the array, each with its number. *)
Fixpoint entries_from (i : u32) (slots : list (option u32)) : list (u32 * u32) :=
  match slots with
  | [] => []
  | Some s :: rest => (i, s) :: entries_from (N.succ i) rest
  | None :: rest => entries_from (N.succ i) rest
  end.

Definition registry_entries (slots : list (option u32)) : list (u32 * u32) :=
  entries_from 0 slots.

Definition bound_queues (slots : list (option u32)) : list u32 :=
  (registry_entries slots).*1.

(** The array of a map has exactly [max_entries] slots. *)
Definition slots_wf (map : bpf_map_decl) (slots : list (option u32)) : Prop :=
  length slots = N.to_nat (max_entries map).

(** ** The system: control plane and data path interleaved *)

Inductive event : Set :=
| ev_bind (q s : u32)
| ev_unbind (q : u32)
| ev_frame (ctx : xdp_md).

Definition set_slots (slots : list (option u32)) (k : kernel) : kernel :=
  {| xsk_slots := slots; ri := ri k; helper_log := helper_log k |}.

Definition step (e : event) (k : kernel) : kernel :=
  match e with
  | ev_bind q s => set_slots (registry_bind xsks_map q s (xsk_slots k)).2 k
  | ev_unbind q => set_slots (registry_unbind xsks_map q (xsk_slots k)).2 k
  | ev_frame ctx => (xsk_redir_prog ctx k).2
  end.

Definition run (es : list event) (k : kernel) : kernel :=
  foldl (fun k e => step e k) k es.

Inductive reachable : kernel -> Prop :=
| reachable_init : reachable kernel_init
| reachable_step e k : reachable k -> reachable (step e k).

Definition sample_ctx (q : u32) : xdp_md :=
  {| data := 0; data_end := 0; data_meta := 0; ingress_ifindex := 1;
     rx_queue_index := q; egress_ifindex := 0 |}.

(** Scenario states of the specification. *)
Definition scenario_A : kernel := run [ev_bind 3 7] kernel_init.
Definition scenario_A' : kernel := run [ev_bind 3 9] kernel_init.
Definition scenario_C : kernel :=
  run ((fun q => ev_bind q (100 + q)) <$> (N.of_nat <$> seq 0 64)) kernel_init.
Definition scenario_D : kernel := run [ev_bind 2 9; ev_bind 2 11] kernel_init.

(** ** The program beside a writer

    The control plane may rewrite the map while the program runs.  The
    program looks at the map twice, once in each helper;
    [xsk_redir_prog_racing w] is [xsk_redir_prog] with a writer's update [w]
    of the slots landing between the two helper calls.  With [w] the
    identity it is [xsk_redir_prog]. *)
Definition xsk_redir_prog_racing (w : list (option u32) -> list (option u32))
    (ctx : xdp_md) : bpf Z :=
  (let index := rx_queue_index ctx in
   let* found := bpf_map_lookup_elem xsks_map index in
   do bpf_modify (fun k => set_slots (w (xsk_slots k)) k) then
   match found with
   | Some _ => bpf_redirect_map xsks_map index 0
   | None => bpf_ret XDP_PASS
   end)%bpf.

(** What the driver reads after a run beside a writer. *)
Definition decision_racing (w : list (option u32) -> list (option u32))
    (ctx : xdp_md) (k : kernel) : disposition :=
  let '(act, k') := xsk_redir_prog_racing w ctx k in
  disposition_of act (ri k').

(** The control plane unbinding queue [q], as a writer. *)
Definition unbind_writer (q : u32)
    : list (option u32) -> list (option u32) :=
  fun slots => (registry_unbind xsks_map q slots).2.

(** ** Measures on runs *)

(** The number of frames among the events of a run. *)
Fixpoint frames_in (es : list event) : nat :=
  match es with
  | [] => 0
  | ev_frame _ :: es => S (frames_in es)
  | _ :: es => frames_in es
  end.

(** A logged helper call is in order when, if it is a redirect, it carries
    flags 0 and a key that names a slot of [xsks_map]. *)
Definition redirect_call_ok (c : helper_call) : bool :=
  match c with
  | call_map_lookup_elem _ => true
  | call_redirect_map key flags =>
      (flags =? 0)%N && (key <? max_entries xsks_map)%N
  end.

(** ** The text of the program

    What the program is made of (its statements, the helpers it calls, how
    many statements a run executes) is not visible in [xsk_redir_prog], a
    function.  For that the body of the C function is also given as a syntax
    tree, statement for statement as in afxdp.c, with an interpreter that
    counts the statements it executes.  The language has the loop of C, so
    that the absence of loops is a property of the text and not of the
    language, and a call expression that names any helper of the kernel,
    so that the helpers the text calls are a property of the text too.  It
    has no call of a program function: a BPF program of this kind calls
    helpers only. *)

Inductive ctx_field : Set :=
| f_data
| f_data_end
| f_data_meta
| f_ingress_ifindex
| f_rx_queue_index
| f_egress_ifindex.

Definition read_ctx (f : ctx_field) (ctx : xdp_md) : u32 :=
  match f with
  | f_data => data ctx
  | f_data_end => data_end ctx
  | f_data_meta => data_meta ctx
  | f_ingress_ifindex => ingress_ifindex ctx
  | f_rx_queue_index => rx_queue_index ctx
  | f_egress_ifindex => egress_ifindex ctx
  end.

(** Helpers of the kernel ([enum bpf_func_id]); those that write a map,
    print, chain to another program, take a lock or reserve memory are
    listed beside the two the program uses. *)
Inductive bpf_func : Set :=
| BPF_FUNC_map_lookup_elem
| BPF_FUNC_map_update_elem
| BPF_FUNC_map_delete_elem
| BPF_FUNC_trace_printk
| BPF_FUNC_tail_call
| BPF_FUNC_redirect_map
| BPF_FUNC_spin_lock
| BPF_FUNC_ringbuf_reserve.

#[warnings="-register-all"]
Inductive expr : Set :=
| e_const (z : Z)
| e_var (x : string)
| e_addr (x : string)
| e_ctx (f : ctx_field)
| e_call (h : bpf_func) (map : bpf_map_decl) (args : list expr).

Inductive stmt : Set :=
| s_decl (x : string) (e : expr)
| s_if (c : expr) (body : stmt)
| s_while (c : expr) (body : stmt)
| s_return (e : expr)
| s_seq (s1 s2 : stmt).

(** The body of [xsk_redir_prog], afxdp.c lines 14-18. *)
Definition xsk_redir_prog_text : stmt :=
  s_seq
    (s_decl "index" (e_ctx f_rx_queue_index))
    (s_seq
       (s_if (e_call BPF_FUNC_map_lookup_elem xsks_map [e_addr "index"])
          (s_return
             (e_call BPF_FUNC_redirect_map xsks_map
                [e_var "index"; e_const 0])))
       (s_return (e_const XDP_PASS))).

Inductive val : Set :=
| v_u32 (n : u32)
| v_int (z : Z)
| v_ptr (p : option u32).

(** A value as an unsigned 64-bit argument. *)
Definition as_u64 (v : val) : option u64 :=
  match v with
  | v_u32 n => Some n
  | v_int z => Some (Z.to_N (z mod 2 ^ 64))
  | v_ptr _ => None
  end.

(** A value as the condition of an [if]: non-zero, or a pointer that is not
    null. *)
Definition truthy (v : val) : bool :=
  match v with
  | v_u32 n => negb (n =? 0)%N
  | v_int z => negb (z =? 0)%Z
  | v_ptr p => match p with Some _ => true | None => false end
  end.

Definition locals : Set := list (string * val).

Fixpoint local_get (x : string) (ls : locals) : option val :=
  match ls with
  | [] => None
  | (y, v) :: ls => if String.eqb x y then Some v else local_get x ls
  end.

(** A helper call in the text, given the values of its arguments.  The two
    helpers the kernel state of this development gives a meaning to are run;
    any other is not. *)
Definition call_helper (h : bpf_func) (map : bpf_map_decl) (args : list val)
    (k : kernel) : option (val * kernel) :=
  match h, args with
  | BPF_FUNC_map_lookup_elem, [key] =>
      key ← as_u64 key;
      let '(r, k1) := bpf_map_lookup_elem map key k in
      Some (v_ptr r, k1)
  | BPF_FUNC_redirect_map, [key; flags] =>
      key ← as_u64 key;
      flags ← as_u64 flags;
      let '(r, k1) := bpf_redirect_map map key flags k in
      Some (v_int r, k1)
  | _, _ => None
  end.

(** [&x] passes the local to the helper, which reads the key through it. *)
Fixpoint eval (ctx : xdp_md) (ls : locals) (e : expr) (k : kernel)
    : option (val * kernel) :=
  match e with
  | e_const z => Some (v_int z, k)
  | e_var x => v ← local_get x ls; Some (v, k)
  | e_addr x => v ← local_get x ls; Some (v, k)
  | e_ctx f => Some (v_u32 (read_ctx f ctx), k)
  | e_call h map args =>
      let fix eval_args (es : list expr) (k : kernel)
          : option (list val * kernel) :=
        match es with
        | [] => Some ([], k)
        | e :: es =>
            '(v, k1) ← eval ctx ls e k;
            '(vs, k2) ← eval_args es k1;
            Some (v :: vs, k2)
        end in
      '(vs, k1) ← eval_args args k;
      call_helper h map vs k1
  end.

Inductive outcome : Set :=
| Running
| Returned (v : val).

(** The result of a run: how it ended, the locals at that point, the kernel
    state, and the number of statements executed.  [fuel] bounds the nesting
    of the run; a run that needs more gives [None]. *)
Fixpoint exec (fuel : nat) (ctx : xdp_md) (s : stmt) (ls : locals)
    (k : kernel) : option (outcome * locals * kernel * nat) :=
  match fuel with
  | 0 => None
  | S fuel =>
      match s with
      | s_decl x e =>
          '(v, k1) ← eval ctx ls e k;
          Some (Running, (x, v) :: ls, k1, 1)
      | s_return e =>
          '(v, k1) ← eval ctx ls e k;
          Some (Returned v, ls, k1, 1)
      | s_if c body =>
          '(v, k1) ← eval ctx ls c k;
          if truthy v then
            '(o, ls1, k2, n) ← exec fuel ctx body ls k1;
            Some (o, ls1, k2, S n)
          else Some (Running, ls, k1, 1)
      | s_while c body =>
          '(v, k1) ← eval ctx ls c k;
          if truthy v then
            '(o, ls1, k2, n) ← exec fuel ctx body ls k1;
            match o with
            | Returned _ => Some (o, ls1, k2, S n)
            | Running =>
                '(o2, ls2, k3, n2) ← exec fuel ctx (s_while c body) ls1 k2;
                Some (o2, ls2, k3, S n + n2)
            end
          else Some (Running, ls, k1, 1)
      | s_seq s1 s2 =>
          '(o, ls1, k1, n) ← exec fuel ctx s1 ls k;
          match o with
          | Returned _ => Some (o, ls1, k1, n)
          | Running =>
              '(o2, ls2, k2, n2) ← exec fuel ctx s2 ls1 k1;
              Some (o2, ls2, k2, n + n2)
          end
      end
  end.

(** Syntactic measures of a text. *)
Fixpoint loop_free (s : stmt) : bool :=
  match s with
  | s_decl _ _ | s_return _ => true
  | s_if _ body => loop_free body
  | s_while _ _ => false
  | s_seq s1 s2 => loop_free s1 && loop_free s2
  end.

Fixpoint helpers_of_expr (e : expr) : list bpf_func :=
  match e with
  | e_const _ | e_var _ | e_addr _ | e_ctx _ => []
  | e_call h _ args =>
      (fix helpers_of_args (es : list expr) : list bpf_func :=
         match es with
         | [] => []
         | e :: es => helpers_of_expr e ++ helpers_of_args es
         end) args ++ [h]
  end.

Fixpoint helpers_called (s : stmt) : list bpf_func :=
  match s with
  | s_decl _ e | s_return e => helpers_of_expr e
  | s_if c body | s_while c body => helpers_of_expr c ++ helpers_called body
  | s_seq s1 s2 => helpers_called s1 ++ helpers_called s2
  end.

(** The number of statements of a text. *)
Fixpoint statements (s : stmt) : nat :=
  match s with
  | s_decl _ _ | s_return _ => 1
  | s_if _ body | s_while _ body => S (statements body)
  | s_seq s1 s2 => statements s1 + statements s2
  end.

(** * Properties of the data path *)

Section DataPath.
Implicit Types (ctx : xdp_md) (k : kernel) (q s : u32).

(** The two paths through [xsk_redir_prog], as equations. *)

Lemma xsk_redir_prog_hit ctx k s :
  xsk_map_lookup xsks_map (xsk_slots k) (rx_queue_index ctx) = Some s ->
  xsk_redir_prog ctx k =
    (XDP_REDIRECT,
     {| xsk_slots := xsk_slots k;
        ri := {| tgt_index := rx_queue_index ctx;
                 tgt_value := Some s;
                 tgt_map := BPF_MAP_TYPE_XSKMAP |};
        helper_log := helper_log k ++
          [call_map_lookup_elem (rx_queue_index ctx);
           call_redirect_map (rx_queue_index ctx) 0] |}).
Proof.
  intros Hhit.
  unfold xsk_redir_prog, bpf_map_lookup_elem, bpf_redirect_map,
    bpf_bind, bpf_modify, bpf_get, bpf_ret.
  cbn. rewrite Hhit. cbn.
  unfold set_ri, log_call. cbn.
  change (N.land 0 (N.lnot action_mask 64)) with 0%N. cbn.
  rewrite Hhit. by rewrite <- app_assoc.
Qed.

Lemma xsk_redir_prog_miss ctx k :
  xsk_map_lookup xsks_map (xsk_slots k) (rx_queue_index ctx) = None ->
  xsk_redir_prog ctx k =
    (XDP_PASS, log_call (call_map_lookup_elem (rx_queue_index ctx)) k).
Proof.
  intros Hmiss.
  unfold xsk_redir_prog, bpf_map_lookup_elem, bpf_bind, bpf_modify,
    bpf_get, bpf_ret.
  cbn. by rewrite Hmiss.
Qed.

(** The fall-back of [bpf_redirect_map]: were the slot empty when the
    helper is called, flags 0 would make it answer [XDP_ABORTED].  The
    program calls it only after a lookup of the same key has succeeded on
    the same slots, so this path is not taken by [xsk_redir_prog]. *)
Lemma bpf_redirect_map_unbound map key k :
  xsk_map_lookup map (xsk_slots k) key = None ->
  (bpf_redirect_map map key 0 k).1 = XDP_ABORTED.
Proof.
  intros Hmiss.
  unfold bpf_redirect_map, bpf_bind, bpf_modify, bpf_get, bpf_ret.
  change (N.land 0 (N.lnot action_mask 64)) with 0%N. cbn.
  by rewrite Hmiss.
Qed.

Lemma decision_hit ctx k s :
  xsk_map_lookup xsks_map (xsk_slots k) (rx_queue_index ctx) = Some s ->
  decision ctx k = Redirect (rx_queue_index ctx).
Proof.
  intros Hhit. unfold decision. by rewrite (xsk_redir_prog_hit _ _ _ Hhit).
Qed.

Lemma decision_miss ctx k :
  xsk_map_lookup xsks_map (xsk_slots k) (rx_queue_index ctx) = None ->
  decision ctx k = Pass.
Proof.
  intros Hmiss. unfold decision. by rewrite (xsk_redir_prog_miss _ _ Hmiss).
Qed.

Lemma xsk_redir_prog_slots ctx k :
  xsk_slots (xsk_redir_prog ctx k).2 = xsk_slots k.
Proof.
  destruct (xsk_map_lookup xsks_map (xsk_slots k) (rx_queue_index ctx))
    as [s|] eqn:Hl.
  - by rewrite (xsk_redir_prog_hit _ _ _ Hl).
  - by rewrite (xsk_redir_prog_miss _ _ Hl).
Qed.

(** C1. When the receive queue of the frame has an entry bound to socket
    [s], the program answers [XDP_REDIRECT]; the redirect is addressed to
    the very index the frame arrived on, and that index resolves, both in
    the redirect record and in the map after the run, to [s]. *)
Theorem redirect_on_bound_queue ctx k s :
  xsk_map_lookup xsks_map (xsk_slots k) (rx_queue_index ctx) = Some s ->
  (xsk_redir_prog ctx k).1 = XDP_REDIRECT
  /\ decision ctx k = Redirect (rx_queue_index ctx)
  /\ tgt_index (ri (xsk_redir_prog ctx k).2) = rx_queue_index ctx
  /\ resolved_socket ctx k = Some s
  /\ xsk_map_lookup xsks_map (xsk_slots (xsk_redir_prog ctx k).2)
       (tgt_index (ri (xsk_redir_prog ctx k).2)) = Some s.
Proof.
  intros Hhit. split_and!.
  - by rewrite (xsk_redir_prog_hit _ _ _ Hhit).
  - by apply decision_hit with s.
  - by rewrite (xsk_redir_prog_hit _ _ _ Hhit).
  - unfold resolved_socket. by rewrite (xsk_redir_prog_hit _ _ _ Hhit).
  - rewrite xsk_redir_prog_slots.
    by rewrite (xsk_redir_prog_hit _ _ _ Hhit).
Qed.

(** C2. When the receive queue of the frame has no entry, the program
    answers [XDP_PASS] and nothing else happens: the redirect record is
    left as it was, and the driver reads the answer as [Pass]. *)
Theorem pass_on_unbound_queue ctx k :
  xsk_map_lookup xsks_map (xsk_slots k) (rx_queue_index ctx) = None ->
  (xsk_redir_prog ctx k).1 = XDP_PASS
  /\ decision ctx k = Pass
  /\ ri (xsk_redir_prog ctx k).2 = ri k.
Proof.
  intros Hmiss. split_and!.
  - by rewrite (xsk_redir_prog_miss _ _ Hmiss).
  - by apply decision_miss.
  - by rewrite (xsk_redir_prog_miss _ _ Hmiss).
Qed.

(** On one state of the map, whatever the receive queue and whatever the
    map holds, the program answers [XDP_PASS] or [XDP_REDIRECT], never [XDP_ABORTED],
    [XDP_DROP] or [XDP_TX]; the driver reads [Pass] or a [Redirect]. *)
Theorem two_outcomes ctx k :
  ((xsk_redir_prog ctx k).1 = XDP_PASS /\ decision ctx k = Pass)
  \/ ((xsk_redir_prog ctx k).1 = XDP_REDIRECT
      /\ decision ctx k = Redirect (rx_queue_index ctx)).
Proof.
  destruct (xsk_map_lookup xsks_map (xsk_slots k) (rx_queue_index ctx))
    as [s|] eqn:Hl.
  - right. split; [by rewrite (xsk_redir_prog_hit _ _ _ Hl)|].
    by apply decision_hit with s.
  - left. split; [by rewrite (xsk_redir_prog_miss _ _ Hl)|].
    by apply decision_miss.
Qed.

(** C9. A run of the program leaves the content of the map as it found
    it: no slot is created, overwritten or cleared. *)
Theorem registry_untouched ctx k :
  xsk_slots (xsk_redir_prog ctx k).2 = xsk_slots k
  /\ forall q, xsk_map_lookup xsks_map (xsk_slots (xsk_redir_prog ctx k).2) q
                = xsk_map_lookup xsks_map (xsk_slots k) q.
Proof.
  split; [apply xsk_redir_prog_slots|].
  intros q. by rewrite xsk_redir_prog_slots.
Qed.

(** The answer is a function of the receive queue and of the slots. *)
Lemma xsk_redir_prog_congr ctx1 ctx2 k1 k2 :
  rx_queue_index ctx1 = rx_queue_index ctx2 ->
  xsk_slots k1 = xsk_slots k2 ->
  (xsk_redir_prog ctx1 k1).1 = (xsk_redir_prog ctx2 k2).1
  /\ decision ctx1 k1 = decision ctx2 k2
  /\ ((xsk_redir_prog ctx1 k1).1 = XDP_REDIRECT ->
      ri (xsk_redir_prog ctx1 k1).2 = ri (xsk_redir_prog ctx2 k2).2).
Proof.
  intros Hq Hslots.
  destruct (xsk_map_lookup xsks_map (xsk_slots k1) (rx_queue_index ctx1))
    as [s|] eqn:Hl1.
  - assert (Hl2 : xsk_map_lookup xsks_map (xsk_slots k2)
                    (rx_queue_index ctx2) = Some s) by congruence.
    rewrite (decision_hit _ _ _ Hl1), (decision_hit _ _ _ Hl2).
    rewrite (xsk_redir_prog_hit _ _ _ Hl1), (xsk_redir_prog_hit _ _ _ Hl2).
    cbn. by rewrite Hq.
  - assert (Hl2 : xsk_map_lookup xsks_map (xsk_slots k2)
                    (rx_queue_index ctx2) = None) by congruence.
    rewrite (decision_miss _ _ Hl1), (decision_miss _ _ Hl2).
    rewrite (xsk_redir_prog_miss _ _ Hl1), (xsk_redir_prog_miss _ _ Hl2).
    by cbn.
Qed.

(** C5. The answer depends on the receive queue index and on the content
    of the map, and on nothing else: two contexts that agree on
    [rx_queue_index], run on kernels whose maps agree, get the same return
    code, the same disposition and, on a redirect, the same target record,
    whatever the other fields of the contexts and the rest of the kernel
    state are.  In particular, running the program again on the state the
    first run left behind gives the same answer. *)
Theorem decision_deterministic ctx1 ctx2 k1 k2 :
  rx_queue_index ctx1 = rx_queue_index ctx2 ->
  xsk_slots k1 = xsk_slots k2 ->
  (xsk_redir_prog ctx1 k1).1 = (xsk_redir_prog ctx2 k2).1
  /\ decision ctx1 k1 = decision ctx2 k2
  /\ ((xsk_redir_prog ctx1 k1).1 = XDP_REDIRECT ->
      ri (xsk_redir_prog ctx1 k1).2 = ri (xsk_redir_prog ctx2 k2).2)
  /\ (xsk_redir_prog ctx2 (xsk_redir_prog ctx1 k1).2).1
     = (xsk_redir_prog ctx1 k1).1
  /\ decision ctx2 (xsk_redir_prog ctx1 k1).2 = decision ctx1 k1.
Proof.
  intros Hq Hslots.
  destruct (xsk_redir_prog_congr ctx1 ctx2 k1 k2 Hq Hslots)
    as (Hret & Hdec & Hri).
  destruct (xsk_redir_prog_congr ctx1 ctx2 k1 (xsk_redir_prog ctx1 k1).2 Hq)
    as (Hret' & Hdec' & _).
  { by rewrite xsk_redir_prog_slots. }
  by split_and!.
Qed.

(** C6. A receive queue index of 64 or more names no slot of the map:
    the lookup finds nothing, whatever the map holds, and the program
    answers [XDP_PASS]. *)
Theorem pass_beyond_capacity ctx k :
  (64 <= rx_queue_index ctx)%N ->
  xsk_map_lookup xsks_map (xsk_slots k) (rx_queue_index ctx) = None
  /\ (xsk_redir_prog ctx k).1 = XDP_PASS
  /\ decision ctx k = Pass.
Proof.
  intros Hge.
  assert (Hmiss : xsk_map_lookup xsks_map (xsk_slots k) (rx_queue_index ctx)
                  = None).
  { unfold xsk_map_lookup. change (max_entries xsks_map) with 64%N.
    by rewrite (proj2 (N.leb_le _ _) Hge). }
  split_and!; [done| |by apply decision_miss].
  by rewrite (xsk_redir_prog_miss _ _ Hmiss).
Qed.

(** C7. Two maps that bind the same queue indices, to whatever sockets,
    get the same return code and the same disposition for every frame. *)
Theorem decision_ignores_socket k1 k2 :
  (forall q, is_Some (xsk_map_lookup xsks_map (xsk_slots k1) q) <->
             is_Some (xsk_map_lookup xsks_map (xsk_slots k2) q)) ->
  forall ctx,
    (xsk_redir_prog ctx k1).1 = (xsk_redir_prog ctx k2).1
    /\ decision ctx k1 = decision ctx k2.
Proof.
  intros Hsame ctx. specialize (Hsame (rx_queue_index ctx)).
  destruct (xsk_map_lookup xsks_map (xsk_slots k1) (rx_queue_index ctx))
    as [s1|] eqn:Hl1;
  destruct (xsk_map_lookup xsks_map (xsk_slots k2) (rx_queue_index ctx))
    as [s2|] eqn:Hl2.
  - rewrite (decision_hit _ _ _ Hl1), (decision_hit _ _ _ Hl2).
    by rewrite (xsk_redir_prog_hit _ _ _ Hl1), (xsk_redir_prog_hit _ _ _ Hl2).
  - destruct Hsame as [Hsome _].
    destruct Hsome as [? [=]]. by exists s1.
  - destruct Hsame as [_ Hsome].
    destruct Hsome as [? [=]]. by exists s2.
  - rewrite (decision_miss _ _ Hl1), (decision_miss _ _ Hl2).
    by rewrite (xsk_redir_prog_miss _ _ Hl1), (xsk_redir_prog_miss _ _ Hl2).
Qed.

(** The helper calls of one run: on every context and every kernel state
    the function returns after one call of [bpf_map_lookup_elem] on the
    receive queue index and, on a hit, one call of [bpf_redirect_map] on
    the same index with flags 0; it makes no other helper call, so at most
    two in all. *)
Theorem bounded_run ctx k :
  exists act k' calls,
    xsk_redir_prog ctx k = (act, k')
    /\ helper_log k' = helper_log k ++ calls
    /\ length calls <= 2
    /\ (calls = [call_map_lookup_elem (rx_queue_index ctx)]
        \/ calls = [call_map_lookup_elem (rx_queue_index ctx);
                    call_redirect_map (rx_queue_index ctx) 0]).
Proof.
  destruct (xsk_map_lookup xsks_map (xsk_slots k) (rx_queue_index ctx))
    as [s|] eqn:Hl.
  - eexists _, _, [call_map_lookup_elem (rx_queue_index ctx);
                   call_redirect_map (rx_queue_index ctx) 0].
    split; [by apply xsk_redir_prog_hit|].
    cbn. split_and!; [done|lia|by right].
  - eexists _, _, [call_map_lookup_elem (rx_queue_index ctx)].
    split; [by apply xsk_redir_prog_miss|].
    cbn. split_and!; [done|lia|by left].
Qed.

End DataPath.

(** * Properties of the Registry *)

Section Registry.
Implicit Types (map : bpf_map_decl) (slots : list (option u32)).
Implicit Types (q s i : u32) (k : kernel).

Lemma entries_from_lookup i slots q s :
  (q, s) ∈ entries_from i slots <->
  (i <= q)%N /\ slots !! N.to_nat (q - i) = Some (Some s).
Proof.
  revert i. induction slots as [|o rest IH]; intros i.
  - cbn. rewrite elem_of_nil, lookup_nil. split; [done|]. by intros [_ ?].
  - assert (Hrest : (q, s) ∈ entries_from (N.succ i) rest <->
              (i < q)%N /\ (o :: rest) !! N.to_nat (q - i) = Some (Some s)).
    { rewrite IH. split; intros [Hle Hl]; (split; [lia|]).
      - replace (N.to_nat (q - i)) with (S (N.to_nat (q - N.succ i))) by lia.
        done.
      - replace (N.to_nat (q - i)) with (S (N.to_nat (q - N.succ i)))
          in Hl by lia.
        done. }
    destruct o as [s'|]; cbn [entries_from].
    + rewrite elem_of_cons, Hrest. split.
      * intros [Heq|[Hlt Hl]]; [|split; [lia|done]].
        injection Heq as -> ->. split; [lia|]. by rewrite N.sub_diag.
      * intros [Hle Hl]. destruct (decide (q = i)) as [->|Hne].
        -- left. rewrite N.sub_diag in Hl.
           change (N.to_nat 0) with 0 in Hl. cbn in Hl. congruence.
        -- right. split; [lia|done].
    + rewrite Hrest. split; [intros [Hlt Hl]; split; [lia|done]|].
      intros [Hle Hl]. destruct (decide (q = i)) as [->|Hne].
      * rewrite N.sub_diag in Hl.
        change (N.to_nat 0) with 0 in Hl. by cbn in Hl.
      * split; [lia|done].
Qed.

(** On a well-formed array the entries are exactly what lookups find. *)
Lemma registry_entries_lookup map slots q s :
  slots_wf map slots ->
  (q, s) ∈ registry_entries slots <->
  xsk_map_lookup map slots q = Some s.
Proof.
  unfold slots_wf, registry_entries, xsk_map_lookup. intros Hwf.
  rewrite entries_from_lookup, N.sub_0_r.
  destruct (N.leb_spec (max_entries map) q) as [Hge|Hlt].
  - rewrite lookup_ge_None_2 by lia. split; [by intros [_ ?]|done].
  - destruct (slots !! N.to_nat q) as [[s'|]|]; cbn;
      (split; [intros [_ ?]; congruence|intros ?; split; [lia|congruence]]).
Qed.

Lemma bound_queues_lookup map slots q :
  slots_wf map slots ->
  q ∈ bound_queues slots <-> is_Some (xsk_map_lookup map slots q).
Proof.
  intros Hwf. unfold bound_queues. rewrite list_elem_of_fmap. split.
  - intros [[q' s] [-> Hin]]. exists s. by apply registry_entries_lookup.
  - intros [s Hl]. exists (q, s). split; [done|].
    by apply (registry_entries_lookup map).
Qed.

Lemma entries_from_length i slots :
  length (entries_from i slots) <= length slots.
Proof.
  revert i. induction slots as [|[s|] rest IH]; intros i; cbn; [lia| |].
  - specialize (IH (N.succ i)). lia.
  - specialize (IH (N.succ i)). lia.
Qed.

(** A slot array with as many entries as slots has no empty slot. *)
Lemma entries_from_full i slots j :
  length (entries_from i slots) = length slots ->
  j < length slots ->
  exists s, slots !! j = Some (Some s).
Proof.
  revert i j. induction slots as [|[s|] rest IH]; intros i j; cbn.
  - lia.
  - intros Hlen Hj. destruct j as [|j]; [by exists s|].
    cbn. apply (IH (N.succ i)); lia.
  - intros Hlen. pose proof (entries_from_length (N.succ i) rest). lia.
Qed.

(** Each queue index has at most one entry, the one a lookup finds. *)
Lemma entries_from_filter i slots q :
  filter (fun e => e.1 = q) (entries_from i slots) =
  match (if decide (i <= q)%N then mjoin (slots !! N.to_nat (q - i)) else None) with
  | Some s => [(q, s)]
  | None => []
  end.
Proof.
  revert i. induction slots as [|o rest IH]; intros i.
  - cbn. by case_decide.
  - assert (Hrest : q <> i ->
      filter (fun e => e.1 = q) (entries_from (N.succ i) rest) =
      match (if decide (i <= q)%N
             then mjoin ((o :: rest) !! N.to_nat (q - i)) else None) with
      | Some s => [(q, s)]
      | None => []
      end).
    { intros Hne. rewrite IH. destruct (decide (i <= q)%N) as [Hle|Hgt].
      - rewrite decide_True by lia.
        replace (N.to_nat (q - i)) with (S (N.to_nat (q - N.succ i))) by lia.
        done.
      - by rewrite decide_False by lia. }
    destruct (decide (q = i)) as [->|Hne].
    + rewrite decide_True by lia. rewrite N.sub_diag. cbn.
      destruct o as [s'|]; cbn [entries_from].
      * rewrite filter_cons_True by done.
        rewrite IH, decide_False by lia. done.
      * rewrite IH, decide_False by lia. done.
    + destruct o as [s'|]; cbn [entries_from].
      * rewrite filter_cons_False by (cbn; congruence). by apply Hrest.
      * by apply Hrest.
Qed.

Lemma registry_entries_filter map slots q :
  slots_wf map slots ->
  filter (fun e => e.1 = q) (registry_entries slots) =
  match xsk_map_lookup map slots q with
  | Some s => [(q, s)]
  | None => []
  end.
Proof.
  unfold slots_wf, registry_entries, xsk_map_lookup. intros Hwf.
  rewrite entries_from_filter, decide_True by lia.
  rewrite N.sub_0_r.
  destruct (N.leb_spec (max_entries map) q) as [Hge|Hlt]; [|done].
  by rewrite lookup_ge_None_2 by lia.
Qed.

(** *** What binding does to lookups *)

Lemma registry_bind_accepted map q s slots slots' :
  registry_bind map q s slots = (Accepted, slots') ->
  (q < max_entries map)%N /\ slots' = <[N.to_nat q := Some s]> slots.
Proof.
  unfold registry_bind.
  destruct (N.leb_spec (max_entries map) q) as [Hge|Hlt]; [done|].
  by intros [= <-].
Qed.

Lemma lookup_insert_slot map slots q o :
  slots_wf map slots -> (q < max_entries map)%N ->
  xsk_map_lookup map (<[N.to_nat q := o]> slots) q = o.
Proof.
  unfold slots_wf, xsk_map_lookup. intros Hwf Hlt.
  destruct (N.leb_spec (max_entries map) q) as [Hge|_]; [lia|].
  by rewrite list_lookup_insert_eq by lia.
Qed.

Lemma lookup_insert_other_slot map slots q q' o :
  q' <> q ->
  xsk_map_lookup map (<[N.to_nat q := o]> slots) q' =
  xsk_map_lookup map slots q'.
Proof.
  unfold xsk_map_lookup. intros Hne.
  by rewrite list_lookup_insert_ne by lia.
Qed.

(** *** Invariants of the running system *)

Lemma registry_bind_length map q s slots :
  length (registry_bind map q s slots).2 = length slots.
Proof.
  unfold registry_bind. destruct (max_entries map <=? q)%N; [done|].
  apply length_insert.
Qed.

Lemma registry_unbind_length map q slots :
  length (registry_unbind map q slots).2 = length slots.
Proof.
  unfold registry_unbind. destruct (max_entries map <=? q)%N; [done|].
  apply length_insert.
Qed.

Lemma step_slots_wf e k :
  slots_wf xsks_map (xsk_slots k) ->
  slots_wf xsks_map (xsk_slots (step e k)).
Proof.
  unfold slots_wf. intros Hwf. destruct e as [q s|q|ctx]; cbn [step].
  - cbn [set_slots xsk_slots]. by rewrite registry_bind_length.
  - cbn [set_slots xsk_slots]. by rewrite registry_unbind_length.
  - by rewrite xsk_redir_prog_slots.
Qed.

Lemma reachable_slots_wf k : reachable k -> slots_wf xsks_map (xsk_slots k).
Proof.
  induction 1 as [|e k _ IH]; [reflexivity|]. by apply step_slots_wf.
Qed.

Lemma reachable_run es k : reachable k -> reachable (run es k).
Proof.
  revert k. induction es as [|e es IH]; intros k Hk; [done|].
  cbn. apply IH. by constructor.
Qed.

(** C4. In every state the system can reach the Registry holds at most 64
    entries.  When it holds 64, binding a queue that has no entry is
    rejected, and the rejected attempt leaves the slots, hence every
    lookup, as they were. *)
Theorem registry_capacity k :
  reachable k ->
  length (registry_entries (xsk_slots k)) <= 64
  /\ forall q s,
       length (registry_entries (xsk_slots k)) = 64 ->
       xsk_map_lookup xsks_map (xsk_slots k) q = None ->
       registry_bind xsks_map q s (xsk_slots k) = (Rejected, xsk_slots k)
       /\ xsk_slots (step (ev_bind q s) k) = xsk_slots k.
Proof.
  intros Hwf%reachable_slots_wf. unfold slots_wf in Hwf.
  change (N.to_nat (max_entries xsks_map)) with 64 in Hwf.
  pose proof (entries_from_length 0 (xsk_slots k)) as Hle.
  split; [unfold registry_entries; lia|].
  intros q s Hfull Hfree.
  assert (Hq : (max_entries xsks_map <= q)%N).
  { destruct (N.le_gt_cases (max_entries xsks_map) q) as [|Hlt]; [done|].
    change (max_entries xsks_map) with 64%N in Hlt.
    destruct (entries_from_full 0 (xsk_slots k) (N.to_nat q)) as [s' Hs'].
    - unfold registry_entries in Hfull. lia.
    - lia.
    - unfold xsk_map_lookup in Hfree.
      destruct (N.leb_spec (max_entries xsks_map) q); [done|].
      by rewrite Hs' in Hfree. }
  assert (Hrej : registry_bind xsks_map q s (xsk_slots k)
                 = (Rejected, xsk_slots k)).
  { unfold registry_bind. by rewrite (proj2 (N.leb_le _ _) Hq). }
  split; [done|]. cbn [step]. by rewrite Hrej.
Qed.

(** C8. Binding queue [q] to [s1] and then to [s2] leaves one entry for
    [q], and its socket is [s2]; no other queue is affected. *)
Theorem rebind_last_write_wins k q s1 s2 slots1 slots2 :
  reachable k ->
  registry_bind xsks_map q s1 (xsk_slots k) = (Accepted, slots1) ->
  registry_bind xsks_map q s2 slots1 = (Accepted, slots2) ->
  xsk_map_lookup xsks_map slots2 q = Some s2
  /\ filter (fun e => e.1 = q) (registry_entries slots2) = [(q, s2)]
  /\ forall q', q' <> q ->
       xsk_map_lookup xsks_map slots2 q'
       = xsk_map_lookup xsks_map (xsk_slots k) q'.
Proof.
  intros Hwf%reachable_slots_wf
    [Hq ->]%registry_bind_accepted [_ ->]%registry_bind_accepted.
  assert (Hwf1 : slots_wf xsks_map (<[N.to_nat q := Some s1]> (xsk_slots k)))
    by (unfold slots_wf; by rewrite length_insert).
  assert (Hwf2 : slots_wf xsks_map
            (<[N.to_nat q := Some s2]> (<[N.to_nat q := Some s1]> (xsk_slots k))))
    by (unfold slots_wf; by rewrite length_insert).
  assert (Hl : xsk_map_lookup xsks_map
            (<[N.to_nat q := Some s2]> (<[N.to_nat q := Some s1]> (xsk_slots k))) q
            = Some s2) by by apply lookup_insert_slot.
  split_and!; [done| |].
  - by rewrite (registry_entries_filter xsks_map), Hl.
  - intros q' Hne. by rewrite !lookup_insert_other_slot.
Qed.

End Registry.

(** * The scenarios of the specification, run *)

Section Scenarios.

Lemma redirect_on_bound_queue_witness :
  xsk_map_lookup xsks_map (xsk_slots scenario_A) 3 = Some 7%N
  /\ decision (sample_ctx 3) scenario_A = Redirect 3
  /\ resolved_socket (sample_ctx 3) scenario_A = Some 7%N.
Proof.
  split; [reflexivity|].
  destruct (redirect_on_bound_queue (sample_ctx 3) scenario_A 7 eq_refl)
    as (_ & Hd & _ & Hs & _).
  exact (conj Hd Hs).
Defined.

Lemma pass_on_unbound_queue_witness :
  xsk_map_lookup xsks_map (xsk_slots scenario_A) 5 = None
  /\ decision (sample_ctx 5) scenario_A = Pass.
Proof.
  split; [reflexivity|].
  destruct (pass_on_unbound_queue (sample_ctx 5) scenario_A eq_refl)
    as (_ & Hd & _).
  exact Hd.
Defined.

Lemma decision_deterministic_witness :
  decision (mk_xdp_md 4096 5610 4096 2 3 0) scenario_A
  = decision (sample_ctx 3) (set_ri ri_init scenario_A).
Proof.
  destruct (decision_deterministic (mk_xdp_md 4096 5610 4096 2 3 0)
              (sample_ctx 3) scenario_A (set_ri ri_init scenario_A)
              eq_refl eq_refl) as (_ & Hd & _).
  exact Hd.
Defined.

Lemma pass_beyond_capacity_witness :
  decision (sample_ctx 64) scenario_C = Pass.
Proof.
  destruct (pass_beyond_capacity (sample_ctx 64) scenario_C) as (_ & _ & Hd).
  - cbn. lia.
  - exact Hd.
Defined.

Lemma decision_ignores_socket_witness :
  bound_queues (xsk_slots scenario_A) = bound_queues (xsk_slots scenario_A')
  /\ resolved_socket (sample_ctx 3) scenario_A
     <> resolved_socket (sample_ctx 3) scenario_A'
  /\ decision (sample_ctx 3) scenario_A = decision (sample_ctx 3) scenario_A'.
Proof.
  split; [reflexivity|]. split; [discriminate|].
  apply (decision_ignores_socket scenario_A scenario_A').
  intros q.
  rewrite <- !bound_queues_lookup by reflexivity.
  reflexivity.
Defined.

Lemma registry_capacity_witness :
  length (registry_entries (xsk_slots scenario_C)) = 64
  /\ registry_bind xsks_map 64 5 (xsk_slots scenario_C)
     = (Rejected, xsk_slots scenario_C).
Proof.
  split; [reflexivity|].
  destruct (registry_capacity scenario_C) as [_ Hfull].
  - apply reachable_run, reachable_init.
  - destruct (Hfull 64%N 5%N eq_refl eq_refl) as [Hrej _]. exact Hrej.
Defined.

Lemma rebind_last_write_wins_witness :
  registry_entries (xsk_slots scenario_D) = [(2%N, 11%N)]
  /\ xsk_map_lookup xsks_map (xsk_slots scenario_D) 2 = Some 11%N.
Proof.
  split; [reflexivity|].
  destruct (rebind_last_write_wins kernel_init 2 9 11
              (xsk_slots (run [ev_bind 2 9] kernel_init))
              (xsk_slots scenario_D)
              reachable_init eq_refl eq_refl) as (Hl & _).
  exact Hl.
Defined.

End Scenarios.

(** * The program in the running system *)

Section System.
Implicit Types (ctx : xdp_md) (k : kernel) (q s : u32) (es : list event).

Lemma run_cons e es k : run (e :: es) k = run es (step e k).
Proof. reflexivity. Qed.

Lemma run_frames_slots (ctxs : list xdp_md) k :
  xsk_slots (run (ev_frame <$> ctxs) k) = xsk_slots k.
Proof.
  revert k. induction ctxs as [|c ctxs IH]; intros k; [done|].
  rewrite fmap_cons, run_cons, IH. cbn [step]. apply xsk_redir_prog_slots.
Qed.

(** X1. Frames do not disturb one another: a batch of frames, whatever
    their queues, leaves the content of the map as it was, and a frame
    processed after the batch gets the return code and the disposition it
    would have got before it. *)
Theorem frames_independent (ctxs : list xdp_md) k ctx :
  xsk_slots (run (ev_frame <$> ctxs) k) = xsk_slots k
  /\ (xsk_redir_prog ctx (run (ev_frame <$> ctxs) k)).1
     = (xsk_redir_prog ctx k).1
  /\ decision ctx (run (ev_frame <$> ctxs) k) = decision ctx k.
Proof.
  pose proof (run_frames_slots ctxs k) as Hslots.
  destruct (xsk_redir_prog_congr ctx ctx (run (ev_frame <$> ctxs) k) k
              eq_refl Hslots) as (Hret & Hdec & _).
  by split_and!.
Qed.

Lemma redirect_code_iff ctx k :
  (xsk_redir_prog ctx k).1 = XDP_REDIRECT <->
  is_Some (xsk_map_lookup xsks_map (xsk_slots k) (rx_queue_index ctx)).
Proof.
  destruct (xsk_map_lookup xsks_map (xsk_slots k) (rx_queue_index ctx))
    as [s|] eqn:Hl.
  - rewrite (xsk_redir_prog_hit _ _ _ Hl). split; [by eexists|done].
  - rewrite (xsk_redir_prog_miss _ _ Hl). split; [done|by intros [? [=]]].
Qed.

Lemma pass_code_iff ctx k :
  (xsk_redir_prog ctx k).1 = XDP_PASS <->
  xsk_map_lookup xsks_map (xsk_slots k) (rx_queue_index ctx) = None.
Proof.
  destruct (xsk_map_lookup xsks_map (xsk_slots k) (rx_queue_index ctx))
    as [s|] eqn:Hl.
  - by rewrite (xsk_redir_prog_hit _ _ _ Hl).
  - by rewrite (xsk_redir_prog_miss _ _ Hl).
Qed.

(** X2. In every state the system can reach, the frames that are
    redirected are exactly those whose receive queue is among the bound
    queues of the Registry, and the frames that are passed are exactly the
    others. *)
Theorem redirect_iff_bound ctx k :
  reachable k ->
  ((xsk_redir_prog ctx k).1 = XDP_REDIRECT <->
   rx_queue_index ctx ∈ bound_queues (xsk_slots k))
  /\ ((xsk_redir_prog ctx k).1 = XDP_PASS <->
      rx_queue_index ctx ∉ bound_queues (xsk_slots k)).
Proof.
  intros Hwf%reachable_slots_wf. split.
  - by rewrite redirect_code_iff, (bound_queues_lookup xsks_map).
  - rewrite pass_code_iff, (bound_queues_lookup xsks_map) by done.
    by rewrite eq_None_not_Some.
Qed.

(** The answer and the redirect record are fixed by what the lookup of the
    receive queue finds and by the redirect record before the run. *)
Lemma xsk_redir_prog_same_lookup ctx k1 k2 :
  xsk_map_lookup xsks_map (xsk_slots k1) (rx_queue_index ctx)
  = xsk_map_lookup xsks_map (xsk_slots k2) (rx_queue_index ctx) ->
  ri k1 = ri k2 ->
  (xsk_redir_prog ctx k1).1 = (xsk_redir_prog ctx k2).1
  /\ decision ctx k1 = decision ctx k2
  /\ resolved_socket ctx k1 = resolved_socket ctx k2.
Proof.
  intros Hl Hri. unfold resolved_socket.
  destruct (xsk_map_lookup xsks_map (xsk_slots k1) (rx_queue_index ctx))
    as [s|] eqn:Hl1; symmetry in Hl.
  - rewrite (decision_hit _ _ _ Hl1), (decision_hit _ _ _ Hl).
    by rewrite (xsk_redir_prog_hit _ _ _ Hl1), (xsk_redir_prog_hit _ _ _ Hl).
  - rewrite (decision_miss _ _ Hl1), (decision_miss _ _ Hl).
    rewrite (xsk_redir_prog_miss _ _ Hl1), (xsk_redir_prog_miss _ _ Hl).
    cbn. by rewrite Hri.
Qed.

Lemma lookup_in_range map (slots : list (option u32)) q s :
  xsk_map_lookup map slots q = Some s -> (q < max_entries map)%N.
Proof.
  unfold xsk_map_lookup.
  destruct (N.leb_spec (max_entries map) q); [done|lia].
Qed.

(** X3. Binding and then receiving: after the control plane has bound a
    queue below 64 to socket [s], a frame on that queue is redirected to that
    queue and handed to [s]; a frame on any other queue is answered exactly as
    before the binding. *)
Theorem frame_after_bind k q s ctx :
  reachable k ->
  (q < 64)%N ->
  (rx_queue_index ctx = q ->
     (xsk_redir_prog ctx (step (ev_bind q s) k)).1 = XDP_REDIRECT
     /\ decision ctx (step (ev_bind q s) k) = Redirect q
     /\ resolved_socket ctx (step (ev_bind q s) k) = Some s)
  /\ (rx_queue_index ctx <> q ->
     (xsk_redir_prog ctx (step (ev_bind q s) k)).1 = (xsk_redir_prog ctx k).1
     /\ decision ctx (step (ev_bind q s) k) = decision ctx k
     /\ resolved_socket ctx (step (ev_bind q s) k) = resolved_socket ctx k).
Proof.
  intros Hwf%reachable_slots_wf Hq.
  assert (Hstep : step (ev_bind q s) k
                  = set_slots (<[N.to_nat q := Some s]> (xsk_slots k)) k).
  { cbn [step]. unfold registry_bind.
    change (max_entries xsks_map) with 64%N.
    by rewrite (proj2 (N.leb_gt _ _) Hq). }
  rewrite Hstep. split.
  - intros <-.
    assert (Hl : xsk_map_lookup xsks_map
              (xsk_slots (set_slots
                 (<[N.to_nat (rx_queue_index ctx) := Some s]> (xsk_slots k)) k))
              (rx_queue_index ctx) = Some s)
      by by apply lookup_insert_slot.
    unfold resolved_socket.
    rewrite (decision_hit _ _ _ Hl), (xsk_redir_prog_hit _ _ _ Hl). done.
  - intros Hne. apply xsk_redir_prog_same_lookup; [|done].
    cbn [set_slots xsk_slots]. by apply lookup_insert_other_slot.
Qed.

(** X4. Unbinding and then receiving: after the control plane has unbound
    a queue, a frame on that queue is passed to the network stack; a frame on
    any other queue is answered exactly as before. *)
Theorem frame_after_unbind k q ctx :
  reachable k ->
  (rx_queue_index ctx = q ->
     (xsk_redir_prog ctx (step (ev_unbind q) k)).1 = XDP_PASS
     /\ decision ctx (step (ev_unbind q) k) = Pass)
  /\ (rx_queue_index ctx <> q ->
     (xsk_redir_prog ctx (step (ev_unbind q) k)).1 = (xsk_redir_prog ctx k).1
     /\ decision ctx (step (ev_unbind q) k) = decision ctx k
     /\ resolved_socket ctx (step (ev_unbind q) k) = resolved_socket ctx k).
Proof.
  intros Hwf%reachable_slots_wf. cbn [step]. unfold registry_unbind.
  destruct (N.leb_spec (max_entries xsks_map) q) as [Hge|Hlt]; cbn [snd].
  - split.
    + intros <-.
      assert (Hl : xsk_map_lookup xsks_map
                (xsk_slots (set_slots (xsk_slots k) k)) (rx_queue_index ctx)
                = None).
      { unfold xsk_map_lookup. by rewrite (proj2 (N.leb_le _ _) Hge). }
      by rewrite (decision_miss _ _ Hl), (xsk_redir_prog_miss _ _ Hl).
    + intros _. by apply xsk_redir_prog_same_lookup.
  - split.
    + intros <-.
      assert (Hl : xsk_map_lookup xsks_map
                (xsk_slots (set_slots
                   (<[N.to_nat (rx_queue_index ctx) := None]> (xsk_slots k)) k))
                (rx_queue_index ctx) = None)
        by by apply lookup_insert_slot.
      by rewrite (decision_miss _ _ Hl), (xsk_redir_prog_miss _ _ Hl).
    + intros Hne. apply xsk_redir_prog_same_lookup; [|done].
      cbn [set_slots xsk_slots]. by apply lookup_insert_other_slot.
Qed.

(** *** Where a binding comes from *)

Lemma xsks_map_init_lookup q : xsk_map_lookup xsks_map xsks_map_init q = None.
Proof.
  unfold xsk_map_lookup, xsks_map_init.
  destruct (max_entries xsks_map <=? q)%N; [done|].
  destruct (replicate _ _ !! N.to_nat q) as [o|] eqn:Hl; [|done].
  by apply lookup_replicate_1 in Hl as [-> _].
Qed.

Lemma lookup_insert_slot_Some map (slots : list (option u32)) q q' o s :
  xsk_map_lookup map (<[N.to_nat q := o]> slots) q' = Some s ->
  xsk_map_lookup map slots q' = Some s \/ (q' = q /\ o = Some s).
Proof.
  destruct (decide (q' = q)) as [->|Hne].
  - unfold xsk_map_lookup.
    destruct (max_entries map <=? q)%N; [done|].
    rewrite list_lookup_insert. case_decide; [|by left].
    cbn. intros ->. by right.
  - rewrite lookup_insert_other_slot by done. by left.
Qed.

Lemma step_lookup_source e k q s :
  xsk_map_lookup xsks_map (xsk_slots (step e k)) q = Some s ->
  xsk_map_lookup xsks_map (xsk_slots k) q = Some s \/ e = ev_bind q s.
Proof.
  destruct e as [q0 s0|q0|ctx]; cbn [step].
  - unfold registry_bind.
    destruct (max_entries xsks_map <=? q0)%N; cbn; [by left|].
    intros [Hold|[-> [= ->]]]%lookup_insert_slot_Some; [by left|by right].
  - unfold registry_unbind.
    destruct (max_entries xsks_map <=? q0)%N; cbn; [by left|].
    intros [Hold|[_ [=]]]%lookup_insert_slot_Some. by left.
  - rewrite xsk_redir_prog_slots. by left.
Qed.

Lemma run_lookup_source es k q s :
  xsk_map_lookup xsks_map (xsk_slots (run es k)) q = Some s ->
  xsk_map_lookup xsks_map (xsk_slots k) q = Some s \/ ev_bind q s ∈ es.
Proof.
  revert k. induction es as [|e es IH]; intros k; [by left|].
  rewrite run_cons. intros [Hmid|Hin]%IH.
  - apply step_lookup_source in Hmid as [Hold| ->]; [by left|].
    right. apply elem_of_cons. by left.
  - right. apply elem_of_cons. by right.
Qed.

(** X5. A frame is only ever redirected to a socket the control plane
    bound to its queue: if, after any sequence of bindings, unbindings and
    frames from the freshly created map, a frame is answered with
    [XDP_REDIRECT], the socket it is handed to was bound to the frame's
    receive queue by one of the bindings of the sequence. *)
Theorem redirect_has_binding es ctx :
  (xsk_redir_prog ctx (run es kernel_init)).1 = XDP_REDIRECT ->
  exists s,
    ev_bind (rx_queue_index ctx) s ∈ es
    /\ resolved_socket ctx (run es kernel_init) = Some s.
Proof.
  intros [s Hl]%redirect_code_iff. exists s. split.
  - destruct (run_lookup_source _ _ _ _ Hl) as [Hinit|Hin]; [|done].
    cbn in Hinit. by rewrite xsks_map_init_lookup in Hinit.
  - unfold resolved_socket. by rewrite (xsk_redir_prog_hit _ _ _ Hl).
Qed.

(** *** A writer between the two helper calls *)

Lemma xsk_redir_prog_racing_id ctx k :
  xsk_redir_prog_racing id ctx k = xsk_redir_prog ctx k.
Proof.
  unfold xsk_redir_prog_racing, xsk_redir_prog, bpf_bind, bpf_modify.
  unfold bpf_map_lookup_elem, bpf_bind, bpf_modify, bpf_get, bpf_ret.
  by destruct k.
Qed.

(** X6. With a writer changing the map between the lookup and the
    redirect, the program has three answers.  A queue unbound at the lookup
    is passed, whatever the writer does.  A queue bound at the lookup and
    still bound after the write is redirected to itself and handed to the
    socket bound after the write.  A queue bound at the lookup and unbound
    by the write is answered with [XDP_ABORTED], the fall-back that flags 0
    selects.  With no writer the racing program is [xsk_redir_prog]. *)
Theorem racing_writer_outcomes (w : list (option u32) -> list (option u32))
    ctx k :
  xsk_redir_prog_racing id ctx k = xsk_redir_prog ctx k
  /\ match xsk_map_lookup xsks_map (xsk_slots k) (rx_queue_index ctx),
           xsk_map_lookup xsks_map (w (xsk_slots k)) (rx_queue_index ctx) with
     | None, _ =>
         (xsk_redir_prog_racing w ctx k).1 = XDP_PASS
         /\ ri (xsk_redir_prog_racing w ctx k).2 = ri k
     | Some _, Some s' =>
         (xsk_redir_prog_racing w ctx k).1 = XDP_REDIRECT
         /\ tgt_index (ri (xsk_redir_prog_racing w ctx k).2)
            = rx_queue_index ctx
         /\ tgt_value (ri (xsk_redir_prog_racing w ctx k).2) = Some s'
     | Some _, None =>
         (xsk_redir_prog_racing w ctx k).1 = XDP_ABORTED
         /\ tgt_value (ri (xsk_redir_prog_racing w ctx k).2) = None
     end.
Proof.
  split; [apply xsk_redir_prog_racing_id|].
  unfold xsk_redir_prog_racing, bpf_map_lookup_elem, bpf_redirect_map,
    bpf_bind, bpf_modify, bpf_get, bpf_ret.
  cbn.
  destruct (xsk_map_lookup xsks_map (xsk_slots k) (rx_queue_index ctx))
    as [s0|] eqn:Hl0; cbn; [|done].
  change (N.land 0 (N.lnot action_mask 64)) with 0%N. cbn.
  by destruct (xsk_map_lookup xsks_map (w (xsk_slots k)) (rx_queue_index ctx))
    as [s'|] eqn:Hl1.
Qed.

(** *** The helper calls of a run *)

Lemma step_frame_log ctx k :
  exists calls,
    helper_log (step (ev_frame ctx) k) = helper_log k ++ calls
    /\ 1 <= length calls <= 2
    /\ forallb redirect_call_ok calls = true.
Proof.
  cbn [step].
  destruct (xsk_map_lookup xsks_map (xsk_slots k) (rx_queue_index ctx))
    as [s|] eqn:Hl.
  - rewrite (xsk_redir_prog_hit _ _ _ Hl). eexists. split; [done|].
    split; [cbn; lia|]. apply lookup_in_range in Hl.
    cbn [forallb redirect_call_ok].
    by rewrite (proj2 (N.ltb_lt _ _) Hl).
  - rewrite (xsk_redir_prog_miss _ _ Hl).
    exists [call_map_lookup_elem (rx_queue_index ctx)].
    split; [done|]. split; [cbn; lia|done].
Qed.

(** X7. The helper calls of a run are bounded by its frames: over any
    sequence of events the log of helper calls grows by at least one and at
    most two calls per frame, and bindings and unbindings add none. *)
Theorem helper_calls_per_frame es k :
  length (helper_log k) + frames_in es
    <= length (helper_log (run es k))
    <= length (helper_log k) + 2 * frames_in es.
Proof.
  revert k. induction es as [|e es IH]; intros k; [cbn; lia|].
  rewrite run_cons. specialize (IH (step e k)).
  destruct e as [q s|q|ctx]; cbn [frames_in].
  - by cbn [step set_slots helper_log] in *.
  - by cbn [step set_slots helper_log] in *.
  - destruct (step_frame_log ctx k) as (calls & Hlog & Hlen & _).
    rewrite Hlog, length_app in IH. lia.
Qed.

(** X8. Every redirect the system ever asks of the kernel is in order: in
    every reachable state each logged call of [bpf_redirect_map] carries
    flags 0 and a key below 64, a slot of the map. *)
Theorem redirect_calls_in_range k :
  reachable k -> forallb redirect_call_ok (helper_log k) = true.
Proof.
  induction 1 as [|e k _ IH]; [done|].
  destruct e as [q s|q|ctx].
  - by cbn [step set_slots helper_log].
  - by cbn [step set_slots helper_log].
  - destruct (step_frame_log ctx k) as (calls & -> & _ & Hok).
    by rewrite forallb_app, IH, Hok.
Qed.

End System.

Section SystemScenarios.

Lemma redirect_iff_bound_witness :
  bound_queues (xsk_slots scenario_A) = [3%N]
  /\ (xsk_redir_prog (sample_ctx 3) scenario_A).1 = XDP_REDIRECT.
Proof.
  split; [reflexivity|].
  destruct (redirect_iff_bound (sample_ctx 3) scenario_A) as [[_ Hredirect] _].
  - apply reachable_run, reachable_init.
  - apply Hredirect. change (3%N ∈ [3%N]). constructor.
Defined.

Lemma frame_after_bind_witness :
  decision (sample_ctx 3) (step (ev_bind 3 7) kernel_init) = Redirect 3
  /\ resolved_socket (sample_ctx 3) (step (ev_bind 3 7) kernel_init) = Some 7%N
  /\ decision (sample_ctx 5) (step (ev_bind 3 7) kernel_init)
     = decision (sample_ctx 5) kernel_init.
Proof.
  destruct (frame_after_bind kernel_init 3 7 (sample_ctx 3) reachable_init)
    as [Hsame _]; [reflexivity|].
  destruct (frame_after_bind kernel_init 3 7 (sample_ctx 5) reachable_init)
    as [_ Hother]; [reflexivity|].
  destruct (Hsame eq_refl) as (_ & Hd & Hs).
  destruct Hother as (_ & Hd' & _); [discriminate|].
  exact (conj Hd (conj Hs Hd')).
Defined.

Lemma frame_after_unbind_witness :
  decision (sample_ctx 3) scenario_A = Redirect 3
  /\ decision (sample_ctx 3) (step (ev_unbind 3) scenario_A) = Pass.
Proof.
  split; [reflexivity|].
  destruct (frame_after_unbind scenario_A 3 (sample_ctx 3)) as [Hsame _].
  - apply reachable_run, reachable_init.
  - destruct (Hsame eq_refl) as [_ Hd]. exact Hd.
Defined.

Lemma redirect_has_binding_witness :
  exists s,
    ev_bind 3 s ∈ [ev_bind 3 7; ev_frame (sample_ctx 3); ev_bind 5 8]
    /\ resolved_socket (sample_ctx 3)
         (run [ev_bind 3 7; ev_frame (sample_ctx 3); ev_bind 5 8] kernel_init)
       = Some s.
Proof.
  exact (redirect_has_binding
           [ev_bind 3 7; ev_frame (sample_ctx 3); ev_bind 5 8]
           (sample_ctx 3) eq_refl).
Defined.

Lemma redirect_calls_in_range_witness :
  forallb redirect_call_ok
    (helper_log (run [ev_bind 3 7; ev_frame (sample_ctx 3);
                      ev_frame (sample_ctx 70)] kernel_init)) = true.
Proof.
  apply redirect_calls_in_range. apply reachable_run, reachable_init.
Defined.

End SystemScenarios.

(** * The text of the program, run *)

Section Text.
Implicit Types (ctx : xdp_md) (k : kernel) (s : stmt) (ls : locals).

(** A text without loops executes each of its statements at most once. *)
Lemma exec_loop_free_steps fuel ctx s ls k o ls1 k1 n :
  loop_free s = true ->
  exec fuel ctx s ls k = Some (o, ls1, k1, n) ->
  1 <= n <= statements s.
Proof.
  revert s ls k o ls1 k1 n.
  induction fuel as [|fuel IH]; intros s ls k o ls1 k1 n Hfree; [done|].
  destruct s as [x e|c body|c body|e|s1 s2]; cbn [exec statements].
  - destruct (eval ctx ls e k) as [[v k2]|]; cbn; [|done].
    intros [= <- <- <- <-]. lia.
  - destruct (eval ctx ls c k) as [[v k2]|]; cbn; [|done].
    destruct (truthy v).
    + destruct (exec fuel ctx body ls k2) as [[[[o2 ls2] k3] n2]|] eqn:Hb;
        cbn; [|done].
      intros [= <- <- <- <-]. apply IH in Hb; [lia|done].
    + intros [= <- <- <- <-]. lia.
  - done.
  - destruct (eval ctx ls e k) as [[v k2]|]; cbn; [|done].
    intros [= <- <- <- <-]. lia.
  - cbn in Hfree. apply andb_prop in Hfree as [Hfree1 Hfree2].
    destruct (exec fuel ctx s1 ls k) as [[[[o2 ls2] k2] n2]|] eqn:H1;
      cbn; [|done].
    apply IH in H1; [|done].
    destruct o2.
    + destruct (exec fuel ctx s2 ls2 k2) as [[[[o3 ls3] k3] n3]|] eqn:H2;
        cbn; [|done].
      apply IH in H2; [|done].
      intros [= <- <- <- <-]. lia.
    + intros [= <- <- <- <-]. lia.
Qed.

(** C10. The body of [xsk_redir_prog] has no loop, and the only helpers it
    calls are [bpf_map_lookup_elem] and [bpf_redirect_map], once each in the
    text: none that chains to a program, writes a map, prints, locks or
    reserves memory.  On every context and every kernel state a run returns
    (nesting 4 is enough fuel, and more changes nothing) after exactly three
    statements: the declaration, the [if] with its lookup, and one [return].
    It returns what [xsk_redir_prog] returns and leaves the state
    [xsk_redir_prog] leaves, with [index] its only local.  On a miss the run
    makes the lookup call and answers [XDP_PASS]; on a hit it makes the
    lookup call, then the redirect call, and answers [XDP_REDIRECT]. *)
Theorem straight_line_bounded ctx k (n : nat) :
  loop_free xsk_redir_prog_text = true
  /\ helpers_called xsk_redir_prog_text
     = [BPF_FUNC_map_lookup_elem; BPF_FUNC_redirect_map]
  /\ exec (4 + n) ctx xsk_redir_prog_text [] k
     = Some (Returned (v_int (xsk_redir_prog ctx k).1),
             [("index", v_u32 (rx_queue_index ctx))],
             (xsk_redir_prog ctx k).2,
             3)
  /\ match xsk_map_lookup xsks_map (xsk_slots k) (rx_queue_index ctx) with
     | None =>
         (xsk_redir_prog ctx k).1 = XDP_PASS
         /\ helper_log (xsk_redir_prog ctx k).2
            = helper_log k ++ [call_map_lookup_elem (rx_queue_index ctx)]
     | Some _ =>
         (xsk_redir_prog ctx k).1 = XDP_REDIRECT
         /\ helper_log (xsk_redir_prog ctx k).2
            = helper_log k ++ [call_map_lookup_elem (rx_queue_index ctx);
                               call_redirect_map (rx_queue_index ctx) 0]
     end.
Proof.
  split; [reflexivity|]. split; [reflexivity|].
  destruct (xsk_map_lookup xsks_map (xsk_slots k) (rx_queue_index ctx))
    as [s|] eqn:Hl.
  - rewrite (xsk_redir_prog_hit _ _ _ Hl). split; [|done].
    unfold xsk_redir_prog_text. cbn.
    unfold bpf_map_lookup_elem, bpf_redirect_map, bpf_bind, bpf_modify,
      bpf_get, bpf_ret. cbn.
    rewrite Hl. cbn.
    change (Z.to_N (0 `mod` 2 ^ 64)) with 0%N.
    change (N.land 0 (N.lnot action_mask 64)) with 0%N. cbn.
    rewrite Hl. cbn. unfold set_ri, log_call. cbn.
    by rewrite <- app_assoc.
  - rewrite (xsk_redir_prog_miss _ _ Hl). split; [|done].
    unfold xsk_redir_prog_text. cbn.
    unfold bpf_map_lookup_elem, bpf_bind, bpf_modify, bpf_get, bpf_ret. cbn.
    by rewrite Hl.
Qed.

End Text.

(** * The outcomes of the program *)

Section Outcomes.
Implicit Types (ctx : xdp_md) (k : kernel).

(** C3 (as amended). On a Registry that stays as it is while the program
    runs, the program answers [XDP_PASS] or [XDP_REDIRECT] and the driver
    reads [Pass] or [Redirect].  Beside a writer the program has a third
    answer and no more: it answers [XDP_ABORTED], read as [Aborted], exactly
    when the queue was bound at the lookup and the writer has unbound it
    before the redirect; otherwise it answers [XDP_PASS] (queue unbound at
    the lookup) or [XDP_REDIRECT] to the queue of the frame (queue bound at
    the redirect).  It never answers [XDP_DROP] or [XDP_TX]. *)
Theorem outcomes_beside_writer (w : list (option u32) -> list (option u32))
    ctx k :
  (((xsk_redir_prog ctx k).1 = XDP_PASS /\ decision ctx k = Pass)
   \/ ((xsk_redir_prog ctx k).1 = XDP_REDIRECT
       /\ decision ctx k = Redirect (rx_queue_index ctx)))
  /\ (((xsk_redir_prog_racing w ctx k).1 = XDP_PASS
       /\ decision_racing w ctx k = Pass
       /\ xsk_map_lookup xsks_map (xsk_slots k) (rx_queue_index ctx) = None)
      \/ ((xsk_redir_prog_racing w ctx k).1 = XDP_REDIRECT
          /\ decision_racing w ctx k = Redirect (rx_queue_index ctx)
          /\ is_Some (xsk_map_lookup xsks_map (xsk_slots k)
                        (rx_queue_index ctx))
          /\ is_Some (xsk_map_lookup xsks_map (w (xsk_slots k))
                        (rx_queue_index ctx)))
      \/ ((xsk_redir_prog_racing w ctx k).1 = XDP_ABORTED
          /\ decision_racing w ctx k = Aborted
          /\ is_Some (xsk_map_lookup xsks_map (xsk_slots k)
                        (rx_queue_index ctx))
          /\ xsk_map_lookup xsks_map (w (xsk_slots k)) (rx_queue_index ctx)
             = None)).
Proof.
  split.
  - destruct (xsk_map_lookup xsks_map (xsk_slots k) (rx_queue_index ctx))
      as [s|] eqn:Hl.
    + right. rewrite (decision_hit _ _ _ Hl).
      by rewrite (xsk_redir_prog_hit _ _ _ Hl).
    + left. rewrite (decision_miss _ _ Hl).
      by rewrite (xsk_redir_prog_miss _ _ Hl).
  - unfold decision_racing, xsk_redir_prog_racing, bpf_map_lookup_elem,
      bpf_redirect_map, bpf_bind, bpf_modify, bpf_get, bpf_ret.
    cbn.
    destruct (xsk_map_lookup xsks_map (xsk_slots k) (rx_queue_index ctx))
      as [s0|] eqn:Hl0; cbn; [|by left].
    change (N.land 0 (N.lnot action_mask 64)) with 0%N. cbn.
    destruct (xsk_map_lookup xsks_map (w (xsk_slots k)) (rx_queue_index ctx))
      as [s1|] eqn:Hl1; cbn.
    + right; left. by split_and!.
    + right; right. by split_and!.
Qed.

(** The program beside the control plane unbinding queue 3, on a frame of
    queue 3 bound to socket 7 when the program looks it up: the answer is
    [XDP_ABORTED], neither [XDP_PASS] nor [XDP_REDIRECT]. *)
Lemma aborted_beside_unbind :
  xsk_map_lookup xsks_map (xsk_slots scenario_A) 3 = Some 7%N
  /\ (xsk_redir_prog_racing (unbind_writer 3) (sample_ctx 3) scenario_A).1
     = XDP_ABORTED
  /\ decision_racing (unbind_writer 3) (sample_ctx 3) scenario_A = Aborted
  /\ ~ ((xsk_redir_prog_racing (unbind_writer 3) (sample_ctx 3) scenario_A).1
          = XDP_PASS
        \/ (xsk_redir_prog_racing (unbind_writer 3) (sample_ctx 3)
              scenario_A).1 = XDP_REDIRECT)
  /\ decision_racing (unbind_writer 3) (sample_ctx 3) scenario_A <> Pass
  /\ (forall q, decision_racing (unbind_writer 3) (sample_ctx 3) scenario_A
                <> Redirect q).
Proof.
  split; [reflexivity|]. split; [reflexivity|]. split; [reflexivity|].
  split; [intros [H|H]; discriminate H|].
  split; [discriminate|]. intros q. discriminate.
Qed.

End Outcomes.
